(** * NewsSummarizerBot: the YouTube scraper ([scripts/scraper.py])

    A shallow embedding of the batch planner [split_batches], the record
    normaliser [parse_youtube_response], the fetch wrapper
    [YoutubeService.search_videos] and the pagination driver
    [search_youtube], followed by the properties of the design document
    that concern them.

    Python integers are unbounded, so they are [Z]; Python's floor division
    and modulo agree with [Z.div] and [Z.modulo] (the remainder takes the
    sign of the divisor).  A Python [dict] with string keys is a
    [gmap string _]; a raised exception is the [Raise] branch of [res]. *)

From stdpp Require Import base numbers option list list_monad strings gmap.

Set Warnings "-register-all".
Open Scope Z_scope.

(** ** Exceptions and results *)

(** The exception kinds that the modelled code can meet.  [ValueError] is
    Python's kind for an argument of the right type but an unacceptable
    value; [ApiError] stands for whatever the Google client raises
    (transport and HTTP errors), opaque to the scraper. *)
Inductive exn : Type :=
| ZeroDivisionError
| AttributeError
| KeyError
| TypeError
| ValueError
| OverflowError
| ApiError (what : string).

(** The outcome of evaluating an expression: a value or a raised exception. *)
Inductive res (A : Type) : Type :=
| Ok (a : A)
| Raise (e : exn).
Arguments Ok {A} a.
Arguments Raise {A} e.

#[global] Instance res_ret : MRet res := @Ok.
#[global] Instance res_bind : MBind res := λ A B f m,
  match m with
  | Ok a => f a
  | Raise e => Raise e
  end.
#[global] Instance res_fmap : FMap res := λ A B f m,
  match m with
  | Ok a => Ok (f a)
  | Raise e => Raise e
  end.

Definition is_Ok {A} (m : res A) : Prop := ∃ a, m = Ok a.

(** ** The batch planner *)

(** [divmod(a, b)] on integers. *)
Definition divmod (a b : Z) : res (Z * Z) :=
  if decide (b = 0) then Raise ZeroDivisionError
  else Ok (a `div` b, a `mod` b).

(** [l * n] on a list: [n] copies of [l] end to end, none when [n ≤ 0]. *)
Definition list_mul {A} (l : list A) (n : Z) : list A :=
  mjoin (replicate (Z.to_nat n) l).

(** [split_batches(N, X)], scraper.py lines 9-21. *)
Definition split_batches (N X : Z) : res (list Z) :=
  '(quotient, remainder) ← divmod N X;
  Ok (list_mul [X] quotient ++ (if decide (remainder = 0) then [] else [remainder])).

(** [sum(l)] on a list of integers. *)
Definition sum_Z (l : list Z) : Z := foldr Z.add 0 l.

(** The ceiling of [a / b] for positive [b]. *)
Definition ceil_div (a b : Z) : Z := - ((- a) `div` b).



(** ** Python values *)

(** The values that reach the scraper are decoded JSON: [None], booleans,
    numbers, strings, lists and string-keyed dictionaries.  The code never
    inspects a number, so a number is represented by an integer. *)
Inductive pyval : Type :=
| PNone
| PBool (b : bool)
| PNum (z : Z)
| PStr (s : string)
| PList (l : list pyval)
| PDict (d : gmap string pyval).

(** [v is None]. *)
Definition is_none (v : pyval) : bool :=
  match v with PNone => true | _ => false end.

(** [isinstance(v, dict)]. *)
Definition is_dict (v : pyval) : bool :=
  match v with PDict _ => true | _ => false end.

(** [o.get(k, dflt)]: only a dictionary has a [get] attribute. *)
Definition py_get (o : pyval) (k : string) (dflt : pyval) : res pyval :=
  match o with
  | PDict d => Ok (default dflt (d !! k))
  | _ => Raise AttributeError
  end.

(** [o[k]] for a string [k]: a missing key of a dictionary is a [KeyError],
    and no other modelled value can be subscripted by a string. *)
Definition py_getitem (o : pyval) (k : string) : res pyval :=
  match o with
  | PDict d => match d !! k with Some v => Ok v | None => Raise KeyError end
  | _ => Raise TypeError
  end.

(** The elements that [for i in o] goes through: those of a list, the
    one-character strings of a string, the keys of a dictionary; the other
    values are not iterable. *)
Fixpoint string_chars (s : string) : list pyval :=
  match s with
  | EmptyString => []
  | String c s' => PStr (String c EmptyString) :: string_chars s'
  end.

Definition py_iter (o : pyval) : res (list pyval) :=
  match o with
  | PList l => Ok l
  | PStr s => Ok (string_chars s)
  | PDict d => Ok (PStr <$> (map_to_list d).*1)
  | _ => Raise TypeError
  end.

(** ** The record normaliser *)

(** [parse_youtube_response(response)], scraper.py lines 74-111.  The
    dictionary literal of lines 94-106 binds the eleven keys in turn and
    the comprehension of line 109 keeps the bindings whose value is not
    [None]. *)
Definition parse_youtube_response (response : pyval) : res (gmap string pyval) :=
  data ← py_get response "snippet" (PDict ∅);
  etag ← py_get response "etag" PNone;
  kind ← py_get response "kind" PNone;
  id ← py_get response "id" (PDict ∅);
  videoId ← py_get id "videoId" PNone;
  channelId ← py_get data "channelId" PNone;
  publishedAt ← py_get data "publishedAt" PNone;
  title ← py_get data "title" PNone;
  description ← py_get data "description" PNone;
  thumbnails ← py_get data "thumbnails" PNone;
  channelTitle ← py_get data "channelTitle" PNone;
  liveBroadcastContent ← py_get data "liveBroadcastContent" PNone;
  publishTime ← py_get data "publishTime" PNone;
  let flattened_data : gmap string pyval :=
    <["publishTime" := publishTime]> (
    <["liveBroadcastContent" := liveBroadcastContent]> (
    <["channelTitle" := channelTitle]> (
    <["thumbnails" := thumbnails]> (
    <["description" := description]> (
    <["title" := title]> (
    <["publishedAt" := publishedAt]> (
    <["channelId" := channelId]> (
    <["videoId" := videoId]> (
    <["kind" := kind]> (
    <["etag" := etag]> ∅)))))))))) in
  Ok (filter (λ kv, is_none kv.2 = false) flattened_data).

(** The keys that a record can carry. *)
Definition record_keys : gset string :=
  {[ "etag"; "kind"; "videoId"; "channelId"; "publishedAt"; "title";
     "description"; "thumbnails"; "channelTitle"; "liveBroadcastContent";
     "publishTime" ]}.

(** The shape of a record: keys among [record_keys], no [None] value. *)
Definition record_shape (r : gmap string pyval) : Prop :=
  dom r ⊆ record_keys ∧ ∀ k v, r !! k = Some v → v ≠ PNone.

(** A raw item as the provider documents it: a dictionary whose ["snippet"]
    and ["id"], when present, are dictionaries. *)
Definition raw_item (item : pyval) : Prop :=
  ∃ d, item = PDict d
       ∧ (∀ v, d !! "snippet" = Some v → is_dict v = true)
       ∧ (∀ v, d !! "id" = Some v → is_dict v = true).

(** The raw field behind each record key, following the raw item shape of
    the design document: [etag] and [kind] at the top, [videoId] under
    [id], the remaining keys under [snippet]. *)
Definition nested (d : gmap string pyval) (outer inner : string) : option pyval :=
  match d !! outer with
  | Some (PDict d') => d' !! inner
  | _ => None
  end.

Definition raw_field (d : gmap string pyval) (k : string) : option pyval :=
  if decide (k = "etag" ∨ k = "kind") then d !! k
  else if decide (k = "videoId") then nested d "id" "videoId"
  else if decide (k ∈ record_keys) then nested d "snippet" k
  else None.

(** A value that is there and is not [None]. *)
Definition present (v : pyval) : option pyval :=
  if is_none v then None else Some v.

(** ** Dates and times *)

(** A naive [datetime]: calendar fields without a time zone. *)
Record datetime : Type := {
  year : Z; month : Z; day : Z;
  hour : Z; minute : Z; second : Z; microsecond : Z
}.

(** A [timedelta], normalised as Python keeps it. *)
Record timedelta : Type := { td_days : Z; td_seconds : Z; td_microseconds : Z }.

(** What the process reads from its surroundings when it asks for the time:
    the instant (seconds and microseconds since 1970-01-01T00:00:00 UTC)
    and the offset of the machine's local time zone at that instant, in
    seconds east of UTC. *)
Record clock : Type := { posix_time : Z; posix_micro : Z; utc_offset : Z }.

Definition is_leap (y : Z) : bool :=
  (y `mod` 4 =? 0) && (negb (y `mod` 100 =? 0) || (y `mod` 400 =? 0)).

Definition days_before_year (y : Z) : Z :=
  let y := y - 1 in y * 365 + y `div` 4 - y `div` 100 + y `div` 400.

Definition days_in_month (leap : bool) (m : Z) : Z :=
  match m with
  | 2 => if leap then 29 else 28
  | 4 | 6 | 9 | 11 => 30
  | _ => 31
  end.

Definition days_before_month (leap : bool) (m : Z) : Z :=
  match m with
  | 1 => 0 | 2 => 31 | 3 => 59 | 4 => 90 | 5 => 120 | 6 => 151
  | 7 => 181 | 8 => 212 | 9 => 243 | 10 => 273 | 11 => 304 | _ => 334
  end + (if (2 <? m) && leap then 1 else 0).

(** The proleptic Gregorian ordinal of a date, day 1 being 0001-01-01. *)
Definition ymd2ord (y m d : Z) : Z :=
  days_before_year y + days_before_month (is_leap y) m + d.

(** The date of an ordinal, by the 400, 100, 4 and 1 year cycles. *)
Definition ord2ymd (n : Z) : Z * Z * Z :=
  let n := n - 1 in
  let n400 := n `div` 146097 in let n := n `mod` 146097 in
  let n100 := n `div` 36524 in let n := n `mod` 36524 in
  let n4 := n `div` 1461 in let n := n `mod` 1461 in
  let n1 := n `div` 365 in let n := n `mod` 365 in
  let y := n400 * 400 + 1 + n100 * 100 + n4 * 4 + n1 in
  if (n1 =? 4) || (n100 =? 4) then (y - 1, 12, 31)
  else
    let leapyear := (n1 =? 3) && (negb (n4 =? 24) || (n100 =? 3)) in
    let m := (n + 50) ≫ 5 in
    let preceding := days_before_month leapyear m in
    if n <? preceding
    then (y, m - 1, n - (preceding - days_in_month leapyear (m - 1)) + 1)
    else (y, m, n - preceding + 1).

Definition MAXORDINAL : Z := 3652059.
Definition EPOCH_ORDINAL : Z := 719163.

(** The calendar reading of [s] seconds after the epoch. *)
Definition civil_of_seconds (s us : Z) : datetime :=
  let '(y, m, d) := ord2ymd (EPOCH_ORDINAL + s `div` 86400) in
  let sod := s `mod` 86400 in
  {| year := y; month := m; day := d;
     hour := sod `div` 3600; minute := (sod `mod` 3600) `div` 60;
     second := sod `mod` 60; microsecond := us |}.

(** [datetime.now()]: the wall clock of the local time zone. *)
Definition datetime_now (clk : clock) : datetime :=
  civil_of_seconds (posix_time clk + utc_offset clk) (posix_micro clk).

(** [timedelta(weeks=w)]: at most 999999999 days either way. *)
Definition timedelta_weeks (w : Z) : res timedelta :=
  if decide (Z.abs (7 * w) ≤ 999999999)
  then Ok {| td_days := 7 * w; td_seconds := 0; td_microseconds := 0 |}
  else Raise OverflowError.

(** [dt - td] on a naive datetime: calendar arithmetic, the result between
    years 1 and 9999. *)
Definition datetime_sub (dt : datetime) (td : timedelta) : res datetime :=
  let us := microsecond dt - td_microseconds td in
  let s := hour dt * 3600 + minute dt * 60 + second dt - td_seconds td
           + us `div` 1000000 in
  let d := ymd2ord (year dt) (month dt) (day dt) - td_days td + s `div` 86400 in
  if decide (0 < d ≤ MAXORDINAL) then
    let '(y, m, dd) := ord2ymd d in
    let sod := s `mod` 86400 in
    Ok {| year := y; month := m; day := dd;
          hour := sod `div` 3600; minute := (sod `mod` 3600) `div` 60;
          second := sod `mod` 60; microsecond := us `mod` 1000000 |}
  else Raise OverflowError.

(** A number as [width] decimal digits, zero-padded on the left. *)
Definition digit (n : Z) : Ascii.ascii :=
  Ascii.ascii_of_nat (48 + Z.to_nat (n `mod` 10))%nat.

Fixpoint zfill (width : nat) (n : Z) : string :=
  match width with
  | O => ""
  | S k => zfill k (n `div` 10) +:+ String (digit n) ""
  end.

(** [dt.strftime("%Y-%m-%dT%H:%M:%SZ")]: the calendar fields as they are,
    followed by the letter Z; the microseconds are not printed. *)
Definition strftime_YmdTHMSZ (dt : datetime) : string :=
  zfill 4 (year dt) +:+ "-" +:+ zfill 2 (month dt) +:+ "-" +:+ zfill 2 (day dt)
  +:+ "T" +:+ zfill 2 (hour dt) +:+ ":" +:+ zfill 2 (minute dt) +:+ ":"
  +:+ zfill 2 (second dt) +:+ "Z".

(** Lines 128-129 of scraper.py: [week_ago_formatted]. *)
Definition week_ago_formatted (clk : clock) (amount_weeks : Z) : res string :=
  delta ← timedelta_weeks amount_weeks;
  week_ago_dt ← datetime_sub (datetime_now clk) delta;
  Ok (strftime_YmdTHMSZ week_ago_dt).

(** The lower bound as the design document words it: the instant
    [amount_weeks] weeks before now, written as an ISO-8601 UTC timestamp
    with second precision. *)
Definition published_after_utc (clk : clock) (amount_weeks : Z) : string :=
  strftime_YmdTHMSZ
    (civil_of_seconds (posix_time clk - amount_weeks * 604800) (posix_micro clk)).

(** ** The fetch wrapper and the pagination driver *)

(** The arguments of one [search().list(...)] request. *)
Record request : Type := {
  part : string;
  maxResults : Z;
  q : string;
  publishedAfter : string;
  pageToken : pyval
}.

(** One call of [search_videos]: the request it made and how it ended,
    with the pair [(search_response, next_page_token)] or an exception. *)
Record call : Type := { args : request; outcome : res (pyval * pyval) }.

(** The state a run threads: the state of the provider and the calls of
    [search_videos] made so far, oldest first.  The list of calls is kept
    for the sake of the properties only; the code does not read it. *)
Record state (World : Type) : Type := { world : World; trace : list call }.
Arguments world {World} s.
Arguments trace {World} s.

(** A computation that may call the provider and may raise. *)
Definition M (World A : Type) : Type := state World → res A * state World.

#[global] Instance M_ret {World} : MRet (M World) := λ A a st, (Ok a, st).
#[global] Instance M_bind {World} : MBind (M World) := λ A B f m st,
  match m st with
  | (Ok a, st') => f a st'
  | (Raise e, st') => (Raise e, st')
  end.

(** A computation that does not touch the state. *)
Definition lift {World A} (r : res A) : M World A := λ st, (r, st).

Section Driver.
Context {World : Type}.

(** [request.execute()] on the service that line 135 builds from the API
    key: given a request and the provider's state, the decoded response
    or an exception, and the provider's next state. *)
Variable execute : request → World → res pyval * World.

(** [YoutubeService.search_videos], scraper.py lines 40-71. *)
Definition search_videos (subject : string) (maxResults : Z)
    (publishedAfter : string) (pageToken : pyval) : M World (pyval * pyval) :=
  λ st,
    let request := {| part := "snippet"; maxResults := maxResults;
                      q := subject; publishedAfter := publishedAfter;
                      pageToken := pageToken |} in
    let '(executed, w) := execute request (world st) in
    let result :=
      search_response ← executed;
      next_page_token ← py_get search_response "nextPageToken" PNone;
      Ok (search_response, next_page_token) in
    (result,
     {| world := w;
        trace := trace st ++ [{| args := request; outcome := result |}] |}).

(** Line 144: [[parse_youtube_response(i) for i in search_response["items"]]]. *)
Definition page_records (search_response : pyval) : res (list (gmap string pyval)) :=
  items ← py_getitem search_response "items";
  elements ← py_iter items;
  mapM parse_youtube_response elements.

(** The loop of lines 139-145 over the batch sizes still to do, with the
    current [page_token] and [search_results]. *)
Fixpoint for_batch_sizes (subject week_ago : string) (batch_sizes : list Z)
    (page_token : pyval) (search_results : list (list (gmap string pyval)))
    : M World (list (list (gmap string pyval))) :=
  match batch_sizes with
  | [] => mret search_results
  | batch_size :: rest =>
      '(search_response, page_token) ←
        search_videos subject batch_size week_ago page_token;
      page ← lift (page_records search_response);
      for_batch_sizes subject week_ago rest page_token (search_results ++ [page])
  end.

Definition MAX_YOUTUBE_API_RESULTS : Z := 50.

(** [search_youtube], scraper.py lines 114-148. *)
Definition search_youtube (clk : clock) (subject : string)
    (video_list_size amount_weeks : Z) : M World (list (gmap string pyval)) :=
  week_ago ← lift (week_ago_formatted clk amount_weeks);
  batch_sizes ← lift (split_batches video_list_size MAX_YOUTUBE_API_RESULTS);
  search_results ← for_batch_sizes subject week_ago batch_sizes PNone [];
  mret (concat search_results).

(** A run from a provider state, with no call made yet. *)
Definition run_search_youtube (clk : clock) (subject : string)
    (video_list_size amount_weeks : Z) (w : World)
    : res (list (gmap string pyval)) * state World :=
  search_youtube clk subject video_list_size amount_weeks
    {| world := w; trace := [] |}.
End Driver.

(** The token that a call handed back, when it returned. *)
Definition returned_token (c : call) : option pyval :=
  match outcome c with Ok (_, tok) => Some tok | Raise _ => None end.

(** A call that returned a page whose items were all normalised. *)
Definition call_ok (c : call) : Prop :=
  ∃ resp tok page, outcome c = Ok (resp, tok) ∧ page_records resp = Ok page.

(** The page of a call that went into the records. *)
Definition page_from (c : call) (page : list (gmap string pyval)) : Prop :=
  ∃ resp tok, outcome c = Ok (resp, tok) ∧ page_records resp = Ok page.

(** [call_ok], as a test. *)
Definition call_okb (c : call) : bool :=
  match outcome c with
  | Ok (resp, _) =>
      match page_records resp with Ok _ => true | Raise _ => false end
  | Raise _ => false
  end.

(** The elements of a page, in the order in which line 144 goes through
    them. *)
Definition page_items (search_response : pyval) : res (list pyval) :=
  items ← py_getitem search_response "items";
  py_iter items.

(** The number of items of the page that a call returned. *)
Definition page_size (c : call) : nat :=
  match outcome c with
  | Ok (resp, _) =>
      match page_items resp with Ok items => length items | Raise _ => 0%nat end
  | Raise _ => 0%nat
  end.

(** The request that [search_videos] makes from its arguments. *)
Definition request_of (subject : string) (batch_size : Z) (week_ago : string)
    (page_token : pyval) : request :=
  {| part := "snippet"; maxResults := batch_size; q := subject;
     publishedAfter := week_ago; pageToken := page_token |}.

(** The runs of the loop of lines 139-145, told by the calls they make:
    from a page token, the batch sizes still to do and the pages gathered
    so far, to the calls made and the pages gathered in the end, or the
    exception that stopped the loop. *)
Inductive loop_run (subject week_ago : string) :
    pyval → list Z → list (list (gmap string pyval)) →
    list call → res (list (list (gmap string pyval))) → Prop :=
| loop_done tok acc :
    loop_run subject week_ago tok [] acc [] (Ok acc)
| loop_fetch_raises tok b bs acc c e :
    args c = request_of subject b week_ago tok →
    outcome c = Raise e →
    loop_run subject week_ago tok (b :: bs) acc [c] (Raise e)
| loop_page_raises tok b bs acc c resp tok' e :
    args c = request_of subject b week_ago tok →
    outcome c = Ok (resp, tok') →
    page_records resp = Raise e →
    loop_run subject week_ago tok (b :: bs) acc [c] (Raise e)
| loop_next tok b bs acc c resp tok' page cs out :
    args c = request_of subject b week_ago tok →
    outcome c = Ok (resp, tok') →
    page_records resp = Ok page →
    loop_run subject week_ago tok' bs (acc ++ [page]) cs out →
    loop_run subject week_ago tok (b :: bs) acc (c :: cs) out.

(** ** Test doubles *)

(** A raw item as the search endpoint returns it. *)
Definition sample_item : pyval :=
  PDict (<["kind" := PStr "youtube#searchResult"]> (
         <["etag" := PStr "e1"]> (
         <["id" := PDict (<["kind" := PStr "youtube#video"]>
                          (<["videoId" := PStr "v1"]> ∅))]> (
         <["snippet" := PDict (<["channelId" := PStr "c1"]> (
                               <["title" := PStr "LangChain in ten minutes"]> (
                               <["description" := PStr "An introduction"]> ∅)))]>
         ∅)))).

(** The fields of an item without [snippet.description]. *)
Definition item_without_description : gmap string pyval :=
  <["etag" := PStr "e2"]> (
  <["id" := PDict (<["videoId" := PStr "v2"]> ∅)]> (
  <["snippet" := PDict (<["title" := PStr "Untitled"]> ∅)]> ∅)).

(** A response of [n] items with the given continuation token, if any. *)
Definition page_of (n : nat) (token : option string) : pyval :=
  let body : gmap string pyval := {[ "items" := PList (replicate n sample_item) ]} in
  PDict match token with
        | Some t => <["nextPageToken" := PStr t]> body
        | None => body
        end.

(** A provider that plays back a script: each request gets the next
    response of the script, and a request beyond its end fails. *)
Definition scripted (rq : request) (script : list pyval) : res pyval * list pyval :=
  match script with
  | [] => (Raise (ApiError "quota exceeded"), [])
  | response :: rest => (Ok response, rest)
  end.

(** The script of the design document's driver scenario. *)
Definition three_pages : list pyval :=
  [page_of 50 (Some "t1"); page_of 50 (Some "t2"); page_of 20 None].

(** A provider that runs out of pages after the first and, asked again
    without a token, starts over. *)
Definition restarting_pages : list pyval :=
  [page_of 50 None; page_of 50 (Some "t1"); page_of 50 (Some "t2")].

Definition noon_utc_plus_2 : clock :=
  {| posix_time := 1686830400; posix_micro := 0; utc_offset := 7200 |}.


(* ################################################################# *)
(** * Properties *)

(** ** The batch planner *)

Lemma Ok_inj {A} (a b : A) : Ok a = Ok b → a = b.
Proof. by intros [=]. Qed.

Lemma Raise_not_Ok {A} e (a : A) : Raise e = Ok a → False.
Proof. by intros [=]. Qed.

Lemma list_mul_singleton {A} (x : A) (n : Z) :
  list_mul [x] n = replicate (Z.to_nat n) x.
Proof.
  unfold list_mul. induction (Z.to_nat n) as [|k IH]; simpl; [done|].
  by rewrite IH.
Qed.

Lemma split_batches_nonzero N X :
  X ≠ 0 →
  split_batches N X =
    Ok (replicate (Z.to_nat (N `div` X)) X
        ++ (if decide (N `mod` X = 0) then [] else [N `mod` X])).
Proof.
  intros HX. unfold split_batches, divmod.
  destruct (decide (X = 0)) as [|_]; [done|]. simpl.
  by rewrite list_mul_singleton.
Qed.

Lemma sum_Z_app l k : sum_Z (l ++ k) = sum_Z l + sum_Z k.
Proof. induction l as [|x l IH]; simpl; [done|]. rewrite IH. lia. Qed.

Lemma sum_Z_replicate n x : sum_Z (replicate n x) = Z.of_nat n * x.
Proof. induction n as [|n IH]; simpl; [done|]. rewrite IH. lia. Qed.

Lemma ceil_div_spec a b n :
  0 < b → ceil_div a b = n ↔ (n - 1) * b < a ≤ n * b.
Proof.
  intros Hb. unfold ceil_div.
  pose proof (Z.div_mod (- a) b ltac:(lia)) as Hdm.
  pose proof (Z.mod_pos_bound (- a) b Hb) as Hr.
  split; intros H; nia.
Qed.

(** C1. For every non-negative total and positive page size the planner
    returns a list that sums to the total and whose elements all lie in
    [(0, maxPageSize]]; the four sample plans of the design document are
    as listed there. *)
Theorem split_batches_sum_bounds :
  (∀ total maxPageSize : Z,
     0 ≤ total → 0 < maxPageSize →
     ∃ plan, split_batches total maxPageSize = Ok plan
             ∧ sum_Z plan = total
             ∧ Forall (λ x, 0 < x ≤ maxPageSize) plan)
  ∧ split_batches 50 50 = Ok [50]
  ∧ split_batches 250 50 = Ok [50; 50; 50; 50; 50]
  ∧ split_batches 251 50 = Ok [50; 50; 50; 50; 50; 1]
  ∧ split_batches 49 50 = Ok [49].
Proof.
  split; [|by repeat split].
  intros N X HN HX. eexists. split; [apply split_batches_nonzero; lia|].
  pose proof (Z.div_mod N X ltac:(lia)) as Hdm.
  pose proof (Z.mod_pos_bound N X HX) as Hr.
  pose proof (Z.div_pos N X HN HX) as Hq.
  split.
  - rewrite sum_Z_app, sum_Z_replicate, Z2Nat.id by done.
    destruct (decide (N `mod` X = 0)); simpl; lia.
  - apply Forall_app. split.
    + apply Forall_replicate. lia.
    + destruct (decide (N `mod` X = 0)); [done|].
      apply Forall_singleton. lia.
Qed.

Lemma split_batches_sum_bounds_witness :
  ∃ plan, split_batches 120 50 = Ok plan
          ∧ sum_Z plan = 120
          ∧ Forall (λ x, 0 < x ≤ 50) plan.
Proof. apply (proj1 split_batches_sum_bounds 120 50); lia. Defined.

(** C5. For a non-negative total and a positive page size the plan has
    [ceil(total / maxPageSize)] elements: the quotient's worth of full
    pages, followed by the remainder when it is not zero and by nothing
    otherwise; the plan for a total of 0 is empty. *)
Theorem split_batches_length_last :
  (∀ total maxPageSize : Z,
     0 ≤ total → 0 < maxPageSize →
     ∃ plan, split_batches total maxPageSize = Ok plan
             ∧ Z.of_nat (length plan) = ceil_div total maxPageSize
             ∧ (total `mod` maxPageSize ≠ 0 →
                plan = replicate (Z.to_nat (total `div` maxPageSize)) maxPageSize
                       ++ [total `mod` maxPageSize]
                ∧ last plan = Some (total `mod` maxPageSize))
             ∧ (total `mod` maxPageSize = 0 →
                plan = replicate (Z.to_nat (total `div` maxPageSize)) maxPageSize)
             ∧ 0 ∉ plan)
  ∧ (∀ X : Z, 0 < X → split_batches 0 X = Ok []).
Proof.
  split.
  - intros N X HN HX. eexists. split; [apply split_batches_nonzero; lia|].
    pose proof (Z.div_mod N X ltac:(lia)) as Hdm.
    pose proof (Z.mod_pos_bound N X HX) as Hr.
    pose proof (Z.div_pos N X HN HX) as Hq.
    repeat split.
    + rewrite length_app, length_replicate, Nat2Z.inj_add, Z2Nat.id by done.
      symmetry. apply ceil_div_spec; [done|].
      destruct (decide (N `mod` X = 0)); simpl; nia.
    + by rewrite decide_False.
    + rewrite decide_False by done. apply last_snoc.
    + intros ->. by rewrite decide_True, app_nil_r.
    + rewrite elem_of_app, elem_of_replicate.
      intros [[? _]|Hin]; [lia|].
      destruct (decide (N `mod` X = 0)).
      * by apply elem_of_nil in Hin.
      * apply list_elem_of_singleton in Hin. lia.
  - intros X HX. rewrite split_batches_nonzero by lia.
    by rewrite Z.div_0_l, Z.mod_0_l by lia.
Qed.

Lemma split_batches_length_last_witness :
  ∃ plan, split_batches 251 50 = Ok plan
          ∧ Z.of_nat (length plan) = ceil_div 251 50
          ∧ (251 `mod` 50 ≠ 0 →
             plan = replicate (Z.to_nat (251 `div` 50)) 50 ++ [251 `mod` 50]
             ∧ last plan = Some (251 `mod` 50))
          ∧ (251 `mod` 50 = 0 →
             plan = replicate (Z.to_nat (251 `div` 50)) 50)
          ∧ 0 ∉ plan.
Proof. apply (proj1 split_batches_length_last 251 50); lia. Defined.




(** ** The record normaliser *)

Lemma nested_get d outer inner d' :
  default (PDict ∅) (d !! outer) = PDict d' →
  default PNone (d' !! inner) = default PNone (nested d outer inner).
Proof.
  unfold nested. destruct (d !! outer) as [v|]; simpl.
  - by intros ->.
  - intros [= <-]. by rewrite lookup_empty.
Qed.

Lemma filter_lookup_present (m : gmap string pyval) k :
  filter (λ kv, is_none kv.2 = false) m !! k = m !! k ≫= present.
Proof.
  rewrite map_lookup_filter. destruct (m !! k) as [v|]; simpl; [|done].
  unfold present. case_guard; simpl; by destruct (is_none v).
Qed.

Lemma default_present (o : option pyval) :
  present (default PNone o) = o ≫= present.
Proof. by destruct o. Qed.

Lemma present_Some v w : present v = Some w ↔ v = w ∧ w ≠ PNone.
Proof.
  unfold present. split.
  - destruct v; simpl; intros [= <-]; done.
  - intros [-> Hw]. by destruct w.
Qed.

Lemma elem_of_record_keys k :
  k ∈ record_keys ↔
  k = "etag" ∨ k = "kind" ∨ k = "videoId" ∨ k = "channelId"
  ∨ k = "publishedAt" ∨ k = "title" ∨ k = "description" ∨ k = "thumbnails"
  ∨ k = "channelTitle" ∨ k = "liveBroadcastContent" ∨ k = "publishTime".
Proof.
  unfold record_keys. rewrite !elem_of_union, !elem_of_singleton. tauto.
Qed.

(** Only a dictionary is normalised. *)
Lemma parse_youtube_response_Ok_dict item r :
  parse_youtube_response item = Ok r → ∃ d, item = PDict d.
Proof.
  destruct item; try (intros H; destruct (Raise_not_Ok _ _ H)). by eexists.
Qed.

(** Each key of the record holds the raw field behind it, unless that
    field is missing or [None]. *)
Lemma parse_youtube_response_lookup d r k :
  parse_youtube_response (PDict d) = Ok r →
  r !! k = raw_field d k ≫= present.
Proof.
  unfold parse_youtube_response. cbn [py_get mbind res_bind].
  destruct (default (PDict ∅) (d !! "snippet")) as [| | | | |data] eqn:Hs;
    destruct (default (PDict ∅) (d !! "id")) as [| | | | |idd] eqn:Hi;
    cbn [py_get mbind res_bind];
    try (intros H; destruct (Raise_not_Ok _ _ H)).
  intros <-%Ok_inj. rewrite filter_lookup_present.
  rewrite !(nested_get _ _ _ _ Hs), (nested_get _ _ _ _ Hi).
  unfold raw_field.
  repeat (rewrite lookup_insert; destruct (decide (_ = k)) as [<-|?];
          [cbn [mbind option_bind]; rewrite default_present; reflexivity|]).
  rewrite lookup_empty. cbn [mbind option_bind].
  rewrite decide_False by (intros [Hk|Hk]; symmetry in Hk; contradiction).
  rewrite decide_False by (intros Hk; symmetry in Hk; contradiction).
  rewrite decide_False; [reflexivity|].
  rewrite elem_of_record_keys. intros Hk.
  repeat (destruct Hk as [Hk|Hk]; [symmetry in Hk; contradiction|]).
  symmetry in Hk; contradiction.
Qed.

Lemma raw_field_record_keys d k v : raw_field d k = Some v → k ∈ record_keys.
Proof.
  unfold raw_field. rewrite elem_of_record_keys.
  destruct (decide (k = "etag" ∨ k = "kind")) as [[->| ->]|_]; [tauto..|].
  destruct (decide (k = "videoId")) as [->|_]; [tauto|].
  destruct (decide (k ∈ record_keys)) as [Hk|_]; [|done].
  intros _. by apply elem_of_record_keys.
Qed.

Lemma parse_youtube_response_shape item r :
  parse_youtube_response item = Ok r → record_shape r.
Proof.
  intros Hr. destruct (parse_youtube_response_Ok_dict _ _ Hr) as [d ->].
  split.
  - intros k [v Hv]%elem_of_dom.
    rewrite (parse_youtube_response_lookup _ _ k Hr) in Hv.
    destruct (raw_field d k) as [u|] eqn:Hu; [|done].
    by eapply raw_field_record_keys.
  - intros k v Hv. rewrite (parse_youtube_response_lookup _ _ k Hr) in Hv.
    destruct (raw_field d k) as [u|]; [|done].
    by apply present_Some in Hv as [_ ?].
Qed.

Lemma is_dict_true v : is_dict v = true → ∃ d, v = PDict d.
Proof. destruct v; try done. by eexists. Qed.

Lemma parse_youtube_response_raw_item item :
  raw_item item → ∃ r, parse_youtube_response item = Ok r.
Proof.
  intros (d & -> & Hs & Hi).
  unfold parse_youtube_response. cbn [py_get mbind res_bind].
  assert (∃ data, default (PDict ∅) (d !! "snippet") = PDict data) as [data ->].
  { destruct (d !! "snippet") as [v|]; simpl; [|by eexists].
    by apply is_dict_true, Hs. }
  assert (∃ idd, default (PDict ∅) (d !! "id") = PDict idd) as [idd ->].
  { destruct (d !! "id") as [v|]; simpl; [|by eexists].
    by apply is_dict_true, Hi. }
  cbn [py_get mbind res_bind]. eexists. reflexivity.
Qed.

(** C7. When the snippet of a raw item has no [description], the record
    has no ["description"] key; a key is in the record exactly when the raw
    field behind it is there and is not [None], and then carries that
    field; an item with fields missing is normalised all the same, the
    empty item to the empty record. *)
Theorem parse_youtube_response_omits_absent :
  (∀ d r, parse_youtube_response (PDict d) = Ok r →
          nested d "snippet" "description" = None →
          r !! "description" = None)
  ∧ (∀ d r k v, parse_youtube_response (PDict d) = Ok r →
                (r !! k = Some v ↔ raw_field d k = Some v ∧ v ≠ PNone))
  ∧ (∀ item, raw_item item → ∃ r, parse_youtube_response item = Ok r)
  ∧ parse_youtube_response (PDict ∅) = Ok ∅.
Proof.
  split; [|split; [|split]].
  - intros d r Hr Hd. rewrite (parse_youtube_response_lookup _ _ _ Hr).
    unfold raw_field.
    rewrite decide_False by (by intros [|]).
    rewrite decide_False by done.
    rewrite decide_True by (apply elem_of_record_keys; tauto).
    by rewrite Hd.
  - intros d r k v Hr. rewrite (parse_youtube_response_lookup _ _ _ Hr).
    destruct (raw_field d k) as [u|]; simpl.
    + rewrite present_Some. split; [by intros [-> ?]|by intros [[= ->] ?]].
    + split; [done|by intros [? _]].
  - apply parse_youtube_response_raw_item.
  - by vm_compute.
Qed.

(** ** The pagination driver *)

Lemma mapM_Ok {A B} (f : A → res B) l k :
  mapM f l = Ok k ↔ Forall2 (λ x y, f x = Ok y) l k.
Proof.
  revert k. induction l as [|x l IH]; intros k; simpl.
  - split; [intros <-%Ok_inj; constructor|by inversion 1].
  - destruct (f x) as [y|e] eqn:Hx; simpl.
    + destruct (mapM f l) as [k'|e] eqn:Hl; simpl.
      * split.
        -- intros <-%Ok_inj. constructor; [done|]. by apply IH.
        -- inversion 1 as [|? y' ? k'' Hy Hk]; subst.
           apply IH in Hk. rewrite Hx in Hy.
           apply Ok_inj in Hk, Hy. by subst.
      * split; [intros H; destruct (Raise_not_Ok _ _ H)|].
        inversion 1 as [|? y' ? k'' Hy Hk]; subst.
        apply IH in Hk. by destruct (Raise_not_Ok _ _ Hk).
    + split; [intros H; destruct (Raise_not_Ok _ _ H)|].
      inversion 1 as [|? y' ? k'' Hy Hk]; subst.
      rewrite Hx in Hy. destruct (Raise_not_Ok _ _ Hy).
Qed.

Lemma page_records_items resp page :
  page_records resp = Ok page ↔
  ∃ items, page_items resp = Ok items
           ∧ Forall2 (λ item r, parse_youtube_response item = Ok r) items page.
Proof.
  unfold page_records, page_items.
  destruct (py_getitem resp "items") as [v|e]; simpl.
  - destruct (py_iter v) as [items|e]; simpl.
    + rewrite mapM_Ok. split; [by eexists|by intros (? & <-%Ok_inj & ?)].
    + split; [intros H; destruct (Raise_not_Ok _ _ H)|].
      intros (? & H & _). destruct (Raise_not_Ok _ _ H).
  - split; [intros H; destruct (Raise_not_Ok _ _ H)|].
    intros (? & H & _). destruct (Raise_not_Ok _ _ H).
Qed.

Section DriverFacts.
Context {World : Type}.
Variable execute : request → World → res pyval * World.

(** One call of [search_videos] adds one call to the trace, made of the
    arguments it was given and of what it hands back. *)
Lemma search_videos_trace subject b week_ago tok st :
  ∃ c, args c = request_of subject b week_ago tok
       ∧ outcome c = (search_videos execute subject b week_ago tok st).1
       ∧ trace (search_videos execute subject b week_ago tok st).2 = trace st ++ [c].
Proof.
  unfold search_videos, request_of.
  destruct (execute _ (world st)) as [executed w]. simpl.
  eexists {| args := _; outcome := _ |}. simpl. done.
Qed.

(** One turn of the loop. *)
Lemma for_batch_sizes_cons subject week_ago b bs tok acc st :
  for_batch_sizes execute subject week_ago (b :: bs) tok acc st =
  match search_videos execute subject b week_ago tok st with
  | (Ok (resp, tok'), st1) =>
      match page_records resp with
      | Ok page =>
          for_batch_sizes execute subject week_ago bs tok' (acc ++ [page]) st1
      | Raise e => (Raise e, st1)
      end
  | (Raise e, st1) => (Raise e, st1)
  end.
Proof.
  cbn [for_batch_sizes]. unfold mbind, M_bind, lift.
  destruct (search_videos execute subject b week_ago tok st) as [[[resp tok']|e] st1];
    [|reflexivity].
  by destruct (page_records resp).
Qed.

(** The loop runs as [loop_run] tells. *)
Lemma for_batch_sizes_loop_run subject week_ago bs tok acc st :
  ∃ cs, trace (for_batch_sizes execute subject week_ago bs tok acc st).2
          = trace st ++ cs
        ∧ loop_run subject week_ago tok bs acc cs
            (for_batch_sizes execute subject week_ago bs tok acc st).1.
Proof.
  revert tok acc st. induction bs as [|b bs IH]; intros tok acc st.
  - exists []. simpl. split; [by rewrite app_nil_r|constructor].
  - rewrite for_batch_sizes_cons.
    destruct (search_videos_trace subject b week_ago tok st) as (c & Hargs & Hout & Htr).
    destruct (search_videos execute subject b week_ago tok st) as [[[resp tok']|e] st1];
      simpl in Hout, Htr.
    + destruct (page_records resp) as [page|e] eqn:Hpage.
      * destruct (IH tok' (acc ++ [page]) st1) as (cs & Hcs & Hrun).
        exists (c :: cs). split.
        -- rewrite Hcs, Htr, <-app_assoc. done.
        -- by eapply loop_next.
      * exists [c]. split; [done|]. by eapply loop_page_raises.
    + exists [c]. split; [done|]. by eapply loop_fetch_raises.
Qed.

(** A run of the driver: the time stamp fails and no call is made, or the
    loop runs over the plan from an absent token and no pages. *)
Lemma run_search_youtube_loop_run clk subject n weeks w :
  let run := run_search_youtube execute clk subject n weeks w in
  match week_ago_formatted clk weeks with
  | Raise e => run.1 = Raise e ∧ trace run.2 = []
  | Ok week_ago =>
      ∃ plan pages,
        split_batches n MAX_YOUTUBE_API_RESULTS = Ok plan
        ∧ loop_run subject week_ago PNone plan [] (trace run.2) pages
        ∧ run.1 = (λ ps, concat ps) <$> pages
  end.
Proof.
  unfold run_search_youtube, search_youtube, mbind, M_bind, lift, mret, M_ret.
  destruct (week_ago_formatted clk weeks) as [week_ago|e]; simpl; [|done].
  rewrite split_batches_nonzero by done. simpl.
  match goal with |- context [for_batch_sizes ?e ?s ?wa ?bs ?t ?a ?st] =>
    destruct (for_batch_sizes_loop_run s wa bs t a st) as (cs & Hcs & Hrun);
    destruct (for_batch_sizes e s wa bs t a st) as [[pages|e'] st'] end;
    simpl in *; subst cs; rewrite list_mul_singleton in Hrun;
    eexists _, _; (split; [reflexivity|]); (split; [exact Hrun|reflexivity]).
Qed.
End DriverFacts.

(** *** What a run of the loop tells *)

Section LoopRun.
Context (subject week_ago : string).

Lemma loop_run_args tok bs acc cs out :
  loop_run subject week_ago tok bs acc cs out →
  Forall (λ c, part (args c) = "snippet" ∧ q (args c) = subject
               ∧ publishedAfter (args c) = week_ago) cs.
Proof.
  induction 1 as [| ? ? ? ? ? ? Ha | ? ? ? ? ? ? ? ? Ha | ? ? ? ? ? ? ? ? ? ? Ha];
    repeat constructor; try done; by rewrite Ha.
Qed.

Lemma loop_run_first tok bs acc cs out c :
  loop_run subject week_ago tok bs acc cs out →
  cs !! 0%nat = Some c → pageToken (args c) = tok.
Proof.
  destruct 1 as [| ? ? ? ? ? ? Ha | ? ? ? ? ? ? ? ? Ha | ? ? ? ? ? ? ? ? ? ? Ha];
    simpl; intros [= <-]; by rewrite Ha.
Qed.

Lemma loop_run_threaded tok bs acc cs out i c c' :
  loop_run subject week_ago tok bs acc cs out →
  cs !! i = Some c → cs !! S i = Some c' →
  returned_token c = Some (pageToken (args c')).
Proof.
  intros Hrun. revert i.
  induction Hrun as [| | | tok b bs acc c0 resp tok' page cs out Ha Ho Hp Hrun IH];
    intros i; try (by destruct i).
  destruct i as [|i]; simpl.
  - intros [= <-] Hc'. unfold returned_token. rewrite Ho.
    by rewrite (loop_run_first _ _ _ _ _ _ Hrun Hc').
  - apply IH.
Qed.

Lemma loop_run_sizes_prefix tok bs acc cs out :
  loop_run subject week_ago tok bs acc cs out →
  (λ c, maxResults (args c)) <$> cs `prefix_of` bs.
Proof.
  induction 1 as [| ? ? ? ? ? ? Ha | ? ? ? ? ? ? ? ? Ha | ? ? ? ? ? ? ? ? ? ? Ha];
    simpl; try rewrite Ha; simpl.
  - done.
  - apply prefix_cons, prefix_nil.
  - apply prefix_cons, prefix_nil.
  - by apply prefix_cons.
Qed.

Lemma loop_run_Ok tok bs acc cs pages :
  loop_run subject week_ago tok bs acc cs (Ok pages) →
  (λ c, maxResults (args c)) <$> cs = bs
  ∧ ∃ pages', pages = acc ++ pages' ∧ Forall2 page_from cs pages'.
Proof.
  remember (Ok pages) as out eqn:Hout. intros Hrun. revert pages Hout.
  induction Hrun as [| | | tok b bs acc c0 resp tok' page cs out Ha Ho Hp Hrun IH];
    intros pages Hout; try (by destruct (Raise_not_Ok _ _ Hout)).
  - apply Ok_inj in Hout as ->. split; [done|].
    exists []. by rewrite app_nil_r.
  - destruct (IH _ Hout) as (Hsz & pages' & -> & Hpages).
    split; [by rewrite fmap_cons, Ha, Hsz|].
    exists (page :: pages'). split; [by rewrite <-app_assoc|].
    constructor; [by exists resp, tok'|done].
Qed.

Lemma loop_run_all_ok tok bs acc cs out :
  loop_run subject week_ago tok bs acc cs out →
  Forall call_ok cs → ∃ pages, out = Ok pages.
Proof.
  induction 1 as [| ? ? ? ? c ? Ha Ho | ? ? ? ? c ? ? ? Ha Ho Hp
                  | ? ? ? ? ? ? ? ? ? ? Ha Ho Hp Hrun IH]; intros Hok.
  - by eexists.
  - apply Forall_cons in Hok as [(resp & tok' & page & Hc & _) _].
    rewrite Ho in Hc. destruct (Raise_not_Ok _ _ Hc).
  - apply Forall_cons in Hok as [(resp' & tok'' & page & Hc & Hpage) _].
    rewrite Ho in Hc. apply Ok_inj in Hc as [= <- <-].
    rewrite Hp in Hpage. destruct (Raise_not_Ok _ _ Hpage).
  - apply Forall_cons in Hok as [_ Hok]. by apply IH.
Qed.

Lemma loop_run_raise tok bs acc cs out i c e :
  loop_run subject week_ago tok bs acc cs out →
  cs !! i = Some c → outcome c = Raise e →
  out = Raise e ∧ length cs = S i.
Proof.
  intros Hrun. revert i.
  induction Hrun as [| ? ? ? ? c0 ? Ha Ho | ? ? ? ? c0 ? ? ? Ha Ho Hp
                     | ? ? ? ? c0 ? ? ? ? ? Ha Ho Hp Hrun IH]; intros i Hi Hc.
  - done.
  - destruct i as [|i]; [|done]. simpl in Hi. apply (inj Some) in Hi as ->.
    rewrite Ho in Hc. by injection Hc as ->.
  - destruct i as [|i]; [|done]. simpl in Hi. apply (inj Some) in Hi as ->.
    rewrite Ho in Hc. by destruct (Raise_not_Ok _ _ (eq_sym Hc)).
  - destruct i as [|i]; simpl in Hi.
    + apply (inj Some) in Hi as ->. rewrite Ho in Hc.
      by destruct (Raise_not_Ok _ _ (eq_sym Hc)).
    + destruct (IH _ Hi Hc) as [-> Hlen]. simpl. by rewrite Hlen.
Qed.
End LoopRun.

(** *** Runs of [search_youtube] *)

(** A run whose time stamp is computed and whose calls all return pages
    that are normalised goes through the whole plan. *)
Lemma run_search_youtube_all_ok {World} (execute : request → World → res pyval * World)
    clk subject n weeks w :
  let run := run_search_youtube execute clk subject n weeks w in
  is_Ok (week_ago_formatted clk weeks) →
  Forall call_ok (trace run.2) →
  ∃ week_ago plan pages,
    week_ago_formatted clk weeks = Ok week_ago
    ∧ split_batches n MAX_YOUTUBE_API_RESULTS = Ok plan
    ∧ loop_run subject week_ago PNone plan [] (trace run.2) (Ok pages)
    ∧ run.1 = Ok (concat pages).
Proof.
  intros run [week_ago Hwa] Hok.
  pose proof (run_search_youtube_loop_run execute clk subject n weeks w) as Hrun.
  rewrite Hwa in Hrun. destruct Hrun as (plan & out & Hplan & Hrun & Hres).
  destruct (loop_run_all_ok _ _ _ _ _ _ _ Hrun Hok) as [pages ->].
  by exists week_ago, plan, pages.
Qed.

Lemma call_okb_ok c : call_okb c = true → call_ok c.
Proof.
  unfold call_okb, call_ok. destruct (outcome c) as [[resp tok]|]; [|done].
  destruct (page_records resp) as [page|] eqn:Hp; [|done]. by exists resp, tok, page.
Qed.

Lemma forallb_call_okb cs : forallb call_okb cs = true → Forall call_ok cs.
Proof.
  induction cs as [|c cs IH]; simpl; [constructor|].
  intros [Hc Hcs]%andb_true_iff. constructor; [by apply call_okb_ok|by apply IH].
Qed.

(** C2. When the time stamp is computed and every call returns a page that
    is normalised, the driver makes one call per element of the plan for a
    page size of 50, in the order of the plan and asking for the planned
    number of results; the first call carries no token and each later call
    carries the token that the call before it returned.  In the scenario
    of the design document the plan is [50, 50, 20], three calls are made,
    the second with [t1] and the third with [t2], and 120 records come
    back. *)
Theorem search_youtube_one_call_per_batch :
  (∀ World (execute : request → World → res pyval * World) clk subject n weeks w,
     let run := run_search_youtube execute clk subject n weeks w in
     is_Ok (week_ago_formatted clk weeks) →
     Forall call_ok (trace run.2) →
     ∃ plan records,
       split_batches n 50 = Ok plan
       ∧ run.1 = Ok records
       ∧ (λ c, maxResults (args c)) <$> trace run.2 = plan
       ∧ (∀ c, trace run.2 !! 0%nat = Some c → pageToken (args c) = PNone)
       ∧ (∀ i c c', trace run.2 !! i = Some c → trace run.2 !! S i = Some c' →
                    returned_token c = Some (pageToken (args c'))))
  ∧ (let run := run_search_youtube scripted noon_utc_plus_2 "langchain" 120 4
                  three_pages in
     split_batches 120 50 = Ok [50; 50; 20]
     ∧ page_size <$> trace run.2 = [50; 50; 20]%nat
     ∧ returned_token <$> trace run.2
       = [Some (PStr "t1"); Some (PStr "t2"); Some PNone]
     ∧ length (trace run.2) = 3%nat
     ∧ (λ c, pageToken (args c)) <$> trace run.2 = [PNone; PStr "t1"; PStr "t2"]
     ∧ length <$> run.1 = Ok 120%nat).
Proof.
  split.
  - intros World execute clk subject n weeks w run Hwa Hok.
    destruct (run_search_youtube_all_ok execute clk subject n weeks w Hwa Hok)
      as (week_ago & plan & pages & _ & Hplan & Hrun & Hres).
    exists plan, (concat pages).
    split; [exact Hplan|]. split; [exact Hres|].
    split; [by apply (loop_run_Ok _ _ _ _ _ _ _ Hrun)|]. split.
    + intros c. by apply (loop_run_first _ _ _ _ _ _ _ _ Hrun).
    + intros i c c'. by apply (loop_run_threaded _ _ _ _ _ _ _ _ _ _ Hrun).
  - vm_compute. by repeat split.
Qed.

Lemma search_youtube_one_call_per_batch_witness :
  ∃ plan records,
    split_batches 120 50 = Ok plan
    ∧ (run_search_youtube scripted noon_utc_plus_2 "langchain" 120 4 three_pages).1
      = Ok records
    ∧ (λ c, maxResults (args c))
        <$> trace (run_search_youtube scripted noon_utc_plus_2 "langchain" 120 4
                     three_pages).2 = plan
    ∧ (∀ c, trace (run_search_youtube scripted noon_utc_plus_2 "langchain" 120 4
                     three_pages).2 !! 0%nat = Some c → pageToken (args c) = PNone)
    ∧ (∀ i c c',
         trace (run_search_youtube scripted noon_utc_plus_2 "langchain" 120 4
                  three_pages).2 !! i = Some c →
         trace (run_search_youtube scripted noon_utc_plus_2 "langchain" 120 4
                  three_pages).2 !! S i = Some c' →
         returned_token c = Some (pageToken (args c'))).
Proof.
  apply (proj1 search_youtube_one_call_per_batch (list pyval) scripted
           noon_utc_plus_2 "langchain" 120 4 three_pages).
  - eexists. vm_compute. reflexivity.
  - apply forallb_call_okb. vm_compute. reflexivity.
Defined.

(** C3, as the code has it.  Under the same conditions the driver makes
    every planned call, whatever tokens come back: after a call that
    returned no token the next planned call is made, with no token; and
    every call after the first carries the token that the call before it
    returned, absent or not. *)
Theorem search_youtube_no_short_circuit
    {World} (execute : request → World → res pyval * World)
    clk subject n weeks w :
  let run := run_search_youtube execute clk subject n weeks w in
  is_Ok (week_ago_formatted clk weeks) →
  Forall call_ok (trace run.2) →
  ∃ plan,
    split_batches n 50 = Ok plan
    ∧ length (trace run.2) = length plan
    ∧ (∀ i c, trace run.2 !! i = Some c → returned_token c = Some PNone →
              (S i < length plan)%nat →
              ∃ c', trace run.2 !! S i = Some c'
                    ∧ pageToken (args c') = PNone
                    ∧ plan !! S i = Some (maxResults (args c')))
    ∧ (∀ i c c', trace run.2 !! i = Some c → trace run.2 !! S i = Some c' →
                 returned_token c = Some (pageToken (args c'))).
Proof.
  intros run Hwa Hok.
  destruct (run_search_youtube_all_ok execute clk subject n weeks w Hwa Hok)
    as (week_ago & plan & pages & _ & Hplan & Hrun & Hres).
  pose proof (proj1 (loop_run_Ok _ _ _ _ _ _ _ Hrun)) as Hsz.
  pose proof (λ i c c', loop_run_threaded _ _ _ _ _ _ _ i c c' Hrun) as Hth.
  assert (length (trace run.2) = length plan) as Hlen
    by (by rewrite <-Hsz, length_fmap).
  exists plan. split; [exact Hplan|]. split; [exact Hlen|]. split.
  - intros i c Hc Htok Hi.
    destruct (lookup_lt_is_Some_2 (trace run.2) (S i)) as [c' Hc']; [lia|].
    exists c'. split; [done|]. split.
    + specialize (Hth i c c' Hc Hc'). rewrite Htok in Hth. congruence.
    + rewrite <-Hsz, list_lookup_fmap. unfold run in Hc'. by rewrite Hc'.
  - intros i c c'. apply Hth.
Qed.

Lemma search_youtube_no_short_circuit_witness :
  let run := run_search_youtube scripted noon_utc_plus_2 "langchain" 150 4
               restarting_pages in
  ∃ plan,
    split_batches 150 50 = Ok plan
    ∧ length (trace run.2) = length plan
    ∧ (∀ i c, trace run.2 !! i = Some c → returned_token c = Some PNone →
              (S i < length plan)%nat →
              ∃ c', trace run.2 !! S i = Some c'
                    ∧ pageToken (args c') = PNone
                    ∧ plan !! S i = Some (maxResults (args c')))
    ∧ (∀ i c c', trace run.2 !! i = Some c → trace run.2 !! S i = Some c' →
                 returned_token c = Some (pageToken (args c'))).
Proof.
  apply (search_youtube_no_short_circuit scripted noon_utc_plus_2
           "langchain" 150 4 restarting_pages).
  - eexists. vm_compute. reflexivity.
  - apply forallb_call_okb. vm_compute. reflexivity.
Defined.

(** C3, as stated, fails: after a call that returned no token, a later
    call can carry a token, the one that the call before it returned. *)
Lemma search_youtube_token_after_restart :
  ¬ (∀ World (execute : request → World → res pyval * World)
       clk subject n weeks w i j c c',
       let run := run_search_youtube execute clk subject n weeks w in
       trace run.2 !! i = Some c → returned_token c = Some PNone →
       (i < j)%nat → trace run.2 !! j = Some c' →
       pageToken (args c') = PNone).
Proof.
  intros H.
  pose (run := run_search_youtube scripted noon_utc_plus_2 "langchain" 150 4
                 restarting_pages).
  assert ((λ c, (returned_token c, pageToken (args c))) <$> trace run.2
          = [(Some PNone, PNone); (Some (PStr "t1"), PNone);
             (Some (PStr "t2"), PStr "t1")]) as Htr
    by (vm_compute; reflexivity).
  pose proof (f_equal (λ l, l !! 0%nat) Htr) as H0.
  pose proof (f_equal (λ l, l !! 2%nat) Htr) as H2.
  cbv beta in H0, H2. rewrite list_lookup_fmap in H0, H2.
  destruct (trace run.2 !! 0%nat) as [c|] eqn:Hc; [|discriminate H0].
  destruct (trace run.2 !! 2%nat) as [c'|] eqn:Hc'; [|discriminate H2].
  injection H0 as Htok _. injection H2 as _ Htok'.
  specialize (H (list pyval) scripted noon_utc_plus_2 "langchain" 150 4
                restarting_pages 0%nat 2%nat c c' Hc Htok ltac:(lia) Hc').
  rewrite Htok' in H. discriminate H.
Qed.

(** The items of a call's page, normalised one by one in their order. *)
Lemma page_from_items c page :
  page_from c page ↔
  ∃ resp tok items,
    outcome c = Ok (resp, tok) ∧ page_items resp = Ok items
    ∧ Forall2 (λ item r, parse_youtube_response item = Ok r) items page.
Proof.
  unfold page_from. split.
  - intros (resp & tok & Hc & (items & Hi & Hp)%page_records_items).
    by exists resp, tok, items.
  - intros (resp & tok & items & Hc & Hi & Hp).
    exists resp, tok. split; [done|]. apply page_records_items. by exists items.
Qed.





(** C8. When a call raises, the run raises the same exception, so no
    records come back, and that call is the last one made. *)
Theorem search_youtube_failure_propagates
    {World} (execute : request → World → res pyval * World)
    clk subject n weeks w i c e :
  let run := run_search_youtube execute clk subject n weeks w in
  trace run.2 !! i = Some c → outcome c = Raise e →
  run.1 = Raise e ∧ length (trace run.2) = S i.
Proof.
  intros run Hi He.
  pose proof (run_search_youtube_loop_run execute clk subject n weeks w) as Hrun.
  destruct (week_ago_formatted clk weeks) as [week_ago|e'].
  - destruct Hrun as (plan & out & _ & Hrun & Hres).
    destruct (loop_run_raise _ _ _ _ _ _ _ _ _ _ Hrun Hi He) as [-> Hlen].
    by split.
  - destruct Hrun as [_ Hnil]. unfold run in Hi. by rewrite Hnil in Hi.
Qed.

Lemma search_youtube_failure_propagates_witness :
  let run := run_search_youtube scripted noon_utc_plus_2 "langchain" 200 4
               three_pages in
  run.1 = Raise (ApiError "quota exceeded") ∧ length (trace run.2) = 4%nat.
Proof.
  apply (search_youtube_failure_propagates scripted noon_utc_plus_2
           "langchain" 200 4 three_pages 3
           {| args := request_of "langchain" 50 "2023-05-18T14:00:00Z" PNone;
              outcome := Raise (ApiError "quota exceeded") |}).
  - vm_compute. reflexivity.
  - reflexivity.
Defined.

(** C10. A raw item is normalised to a record whose keys are among the
    eleven record keys and whose values are not [None]; whatever
    [parse_youtube_response] returns has this shape, and so has every
    record that [search_youtube] returns. *)
Theorem parse_youtube_response_record_shape :
  (∀ item, raw_item item →
           ∃ r, parse_youtube_response item = Ok r ∧ record_shape r)
  ∧ (∀ item r, parse_youtube_response item = Ok r → record_shape r)
  ∧ (∀ World (execute : request → World → res pyval * World)
       clk subject n weeks w records,
       (run_search_youtube execute clk subject n weeks w).1 = Ok records →
       Forall record_shape records).
Proof.
  split; [|split].
  - intros item [r Hr]%parse_youtube_response_raw_item.
    exists r. split; [done|]. by eapply parse_youtube_response_shape.
  - apply parse_youtube_response_shape.
  - intros World execute clk subject n weeks w records Hrec.
    pose proof (run_search_youtube_loop_run execute clk subject n weeks w) as Hrun.
    destruct (week_ago_formatted clk weeks) as [week_ago|e'].
    + destruct Hrun as (plan & out & _ & Hrun & Hres).
      rewrite Hrec in Hres. destruct out as [pages|e']; simpl in Hres;
        [|destruct (Raise_not_Ok _ _ (eq_sym Hres))].
      apply Ok_inj in Hres as ->.
      destruct (loop_run_Ok _ _ _ _ _ _ _ Hrun) as (_ & pages' & -> & Hpages).
      simpl. apply Forall_concat.
      clear Hrun Hrec. induction Hpages as [|c page cs pages' Hc _ IH];
        constructor; [|done].
      apply page_from_items in Hc as (resp & tok & items & _ & _ & Hp).
      clear IH. induction Hp as [|item r items page Hr _ IH]; constructor; [|done].
      by eapply parse_youtube_response_shape.
    + destruct Hrun as [Hraise _]. rewrite Hrec in Hraise.
      destruct (Raise_not_Ok _ _ (eq_sym Hraise)).
Qed.

Lemma parse_youtube_response_record_shape_witness :
  ∃ r, parse_youtube_response sample_item = Ok r ∧ record_shape r.
Proof.
  apply (proj1 parse_youtube_response_record_shape sample_item).
  eexists. split; [reflexivity|].
  split; intros v Hv; vm_compute in Hv; injection Hv as <-; reflexivity.
Defined.

Lemma parse_youtube_response_omits_absent_witness :
  ∃ r, parse_youtube_response (PDict item_without_description) = Ok r
       ∧ r !! "description" = None.
Proof.
  assert (∃ r, parse_youtube_response (PDict item_without_description) = Ok r)
    as [r Hr] by (eexists; vm_compute; reflexivity).
  exists r. split; [exact Hr|].
  apply (proj1 parse_youtube_response_omits_absent item_without_description r Hr).
  vm_compute. reflexivity.
Defined.

(** ** The time stamp *)

(** C4 does not hold of the code: [datetime.now()] reads the wall clock of
    the local time zone and the format string appends the letter Z to it.
    At noon UTC on 2023-06-15, on a machine two hours east of UTC, four
    weeks back is 2023-05-18T12:00:00Z, and the code sends 14:00:00Z, in
    every call. *)
Theorem week_ago_formatted_local_time :
  week_ago_formatted noon_utc_plus_2 4 = Ok "2023-05-18T14:00:00Z"
  ∧ published_after_utc noon_utc_plus_2 4 = "2023-05-18T12:00:00Z"
  ∧ (λ c, publishedAfter (args c))
      <$> trace (run_search_youtube scripted noon_utc_plus_2 "langchain" 120 4
                   three_pages).2
    = replicate 3 "2023-05-18T14:00:00Z".
Proof. vm_compute. by repeat split. Qed.

(** * Further properties of the code *)

(** ** The time stamp *)

Lemma timedelta_weeks_Raise w e : timedelta_weeks w = Raise e → e = OverflowError.
Proof.
  unfold timedelta_weeks. destruct (decide _); intros H.
  - destruct (Raise_not_Ok _ _ (eq_sym H)).
  - by injection H.
Qed.

Lemma datetime_sub_Raise dt td e : datetime_sub dt td = Raise e → e = OverflowError.
Proof.
  unfold datetime_sub. cbv zeta. destruct (decide _).
  - destruct (ord2ymd _) as [[y m] d]. intros H.
    destruct (Raise_not_Ok _ _ (eq_sym H)).
  - intros H. by injection H.
Qed.

Lemma bind_Raise {A B} (m : res A) (f : A → res B) e :
  m ≫= f = Raise e → m = Raise e ∨ ∃ a, m = Ok a ∧ f a = Raise e.
Proof.
  destruct m as [a|e']; simpl; intros H; [right; by exists a|left; by injection H as ->].
Qed.

Lemma week_ago_formatted_Raise clk w e :
  week_ago_formatted clk w = Raise e → e = OverflowError.
Proof.
  unfold week_ago_formatted.
  intros [Htd|(td & _ & [Hdt|(dt & _ & H)]%bind_Raise)]%bind_Raise.
  - exact (timedelta_weeks_Raise _ _ Htd).
  - exact (datetime_sub_Raise _ _ _ Hdt).
  - destruct (Raise_not_Ok _ _ (eq_sym H)).
Qed.

(** ** The planner inside the driver *)

(** Whatever the total, a plan for a positive page size has its elements
    in [(0, X]]. *)
Lemma split_batches_pos_bounds N X plan :
  0 < X → split_batches N X = Ok plan → Forall (λ x, 0 < x ≤ X) plan.
Proof.
  intros HX. rewrite split_batches_nonzero by lia. intros <-%Ok_inj.
  pose proof (Z.mod_pos_bound N X HX) as Hr.
  apply Forall_app. split.
  - apply Forall_replicate. lia.
  - destruct (decide (N `mod` X = 0)); [done|]. apply Forall_singleton. lia.
Qed.

Lemma loop_run_bad_page subject week_ago tok bs acc cs out i c resp tok' e :
  loop_run subject week_ago tok bs acc cs out →
  cs !! i = Some c → outcome c = Ok (resp, tok') →
  page_records resp = Raise e →
  out = Raise e ∧ length cs = S i.
Proof.
  intros Hrun. revert i.
  induction Hrun as [| ? ? ? ? c0 ? Ha Ho | ? ? ? ? c0 ? ? ? Ha Ho Hp
                     | ? ? ? ? c0 ? ? ? ? ? Ha Ho Hp Hrun IH]; intros i Hi Hc Hpage.
  - done.
  - destruct i as [|i]; [|done]. simpl in Hi. apply (inj Some) in Hi as ->.
    rewrite Ho in Hc. destruct (Raise_not_Ok _ _ Hc).
  - destruct i as [|i]; [|done]. simpl in Hi. apply (inj Some) in Hi as ->.
    rewrite Ho in Hc. apply Ok_inj in Hc. injection Hc as <- <-.
    rewrite Hp in Hpage. by injection Hpage as ->.
  - destruct i as [|i]; simpl in Hi.
    + apply (inj Some) in Hi as ->. rewrite Ho in Hc.
      apply Ok_inj in Hc. injection Hc as <- <-.
      rewrite Hp in Hpage. destruct (Raise_not_Ok _ _ (eq_sym Hpage)).
    + destruct (IH _ Hi Hc Hpage) as [-> Hlen]. simpl. by rewrite Hlen.
Qed.

Section RunFacts.
Context {World : Type}.
Variable execute : request → World → res pyval * World.

(** X1. Whatever the provider does and whatever number of videos is asked
    for, negative or not, the calls made ask for the page sizes of the
    plan, in its order and from its start, and no call asks for fewer than
    1 or more than 50 results. *)
Theorem search_youtube_calls_within_cap clk subject n weeks w :
  let run := run_search_youtube execute clk subject n weeks w in
  ∃ plan,
    split_batches n 50 = Ok plan
    ∧ (λ c, maxResults (args c)) <$> trace run.2 `prefix_of` plan
    ∧ Forall (λ c, 0 < maxResults (args c) ≤ 50) (trace run.2).
Proof.
  intros run.
  destruct (split_batches n 50) as [plan|e] eqn:Hplan;
    [|rewrite split_batches_nonzero in Hplan by done;
      destruct (Raise_not_Ok _ _ (eq_sym Hplan))].
  exists plan. split; [done|].
  pose proof (run_search_youtube_loop_run execute clk subject n weeks w) as Hrun.
  fold run in Hrun.
  assert ((λ c, maxResults (args c)) <$> trace run.2 `prefix_of` plan) as Hpre.
  { destruct (week_ago_formatted clk weeks) as [week_ago|e].
    - destruct Hrun as (plan' & out & Hplan' & Hrun & _).
      unfold MAX_YOUTUBE_API_RESULTS in Hplan'. rewrite Hplan in Hplan'.
      apply Ok_inj in Hplan' as <-. by eapply loop_run_sizes_prefix.
    - destruct Hrun as [_ ->]. apply prefix_nil. }
  split; [done|].
  destruct Hpre as [rest Hrest].
  pose proof (split_batches_pos_bounds n 50 plan ltac:(lia) Hplan) as Hb.
  rewrite Hrest in Hb. apply Forall_app in Hb as [Hb _].
  by apply Forall_fmap in Hb.
Qed.

(** X2. Every call of a run searches the same term below the same time
    stamp, the one computed once before the loop, and asks for the
    snippet part. *)
Theorem search_youtube_calls_uniform clk subject n weeks w c :
  let run := run_search_youtube execute clk subject n weeks w in
  c ∈ trace run.2 →
  part (args c) = "snippet" ∧ q (args c) = subject
  ∧ week_ago_formatted clk weeks = Ok (publishedAfter (args c)).
Proof.
  intros run Hc.
  pose proof (run_search_youtube_loop_run execute clk subject n weeks w) as Hrun.
  fold run in Hrun.
  destruct (week_ago_formatted clk weeks) as [week_ago|e].
  - destruct Hrun as (plan & out & _ & Hrun & _).
    pose proof (loop_run_args _ _ _ _ _ _ _ Hrun) as Hargs.
    rewrite Forall_forall in Hargs.
    destruct (Hargs c Hc) as (? & ? & ->). done.
  - destruct Hrun as [_ Hnil]. rewrite Hnil in Hc. by apply elem_of_nil in Hc.
Qed.

(** X3. When the plan is empty, which is the case for a total of 0 and
    for the negative multiples of 50, the provider is not called and the
    result is the empty list. *)
Theorem search_youtube_empty_plan clk subject n weeks w :
  let run := run_search_youtube execute clk subject n weeks w in
  is_Ok (week_ago_formatted clk weeks) →
  n ≤ 0 → n `mod` 50 = 0 →
  run.1 = Ok [] ∧ trace run.2 = [] ∧ world run.2 = w.
Proof.
  intros run [week_ago Hwa] Hn Hmod.
  unfold run, run_search_youtube, search_youtube, mbind, M_bind, lift, mret, M_ret.
  rewrite Hwa. cbn [fst snd].
  rewrite split_batches_nonzero by done. unfold MAX_YOUTUBE_API_RESULTS.
  rewrite Hmod, decide_True by done.
  assert (n `div` 50 ≤ 0) as Hq by (apply Z.div_le_upper_bound; lia).
  rewrite Z2Nat.nonpos by done. done.
Qed.

(** X4. A negative total that is not a multiple of 50 is not refused: the
    driver makes exactly one call, for [n mod 50] results and with no
    token. *)
Theorem search_youtube_negative_total clk subject n weeks w :
  let run := run_search_youtube execute clk subject n weeks w in
  is_Ok (week_ago_formatted clk weeks) →
  n < 0 → n `mod` 50 ≠ 0 →
  ∃ c, trace run.2 = [c]
       ∧ maxResults (args c) = n `mod` 50
       ∧ pageToken (args c) = PNone.
Proof.
  intros run [week_ago Hwa] Hn Hmod.
  pose proof (run_search_youtube_loop_run execute clk subject n weeks w) as Hrun.
  fold run in Hrun. rewrite Hwa in Hrun.
  destruct Hrun as (plan & out & Hplan & Hrun & _).
  rewrite split_batches_nonzero in Hplan by done.
  unfold MAX_YOUTUBE_API_RESULTS in Hplan.
  assert (n `div` 50 < 0) as Hq by (apply Z.div_lt_upper_bound; lia).
  rewrite Z2Nat.nonpos, decide_False in Hplan by (done || lia).
  apply Ok_inj in Hplan as <-. simpl in Hrun.
  inversion Hrun as [| ? ? ? ? c ? Ha | ? ? ? ? c ? ? ? Ha
                     | ? ? ? ? c ? ? ? cs ? Ha ? ? Hrest]; subst.
  - exists c. by rewrite Ha.
  - exists c. by rewrite Ha.
  - inversion Hrest; subst. exists c. by rewrite Ha.
Qed.

(** X5. When the time stamp cannot be computed, the look-back reaching
    before year 1 or past year 9999, the run raises an [OverflowError]
    before any call is made. *)
Theorem search_youtube_lookback_overflow clk subject n weeks w e :
  let run := run_search_youtube execute clk subject n weeks w in
  week_ago_formatted clk weeks = Raise e →
  e = OverflowError ∧ run.1 = Raise OverflowError ∧ trace run.2 = []
  ∧ world run.2 = w.
Proof.
  intros run He.
  assert (e = OverflowError) as -> by exact (week_ago_formatted_Raise _ _ _ He).
  split; [done|].
  unfold run, run_search_youtube, search_youtube, mbind, M_bind, lift.
  by rewrite He.
Qed.

(** X6. When the page that a call returned cannot be normalised, the run
    raises the exception of the normalisation, the pages gathered before
    are lost, and that call is the last one made. *)
Theorem search_youtube_bad_page clk subject n weeks w i c resp tok e :
  let run := run_search_youtube execute clk subject n weeks w in
  trace run.2 !! i = Some c → outcome c = Ok (resp, tok) →
  page_records resp = Raise e →
  run.1 = Raise e ∧ length (trace run.2) = S i.
Proof.
  intros run Hi Hc Hp.
  pose proof (run_search_youtube_loop_run execute clk subject n weeks w) as Hrun.
  fold run in Hrun.
  destruct (week_ago_formatted clk weeks) as [week_ago|e'].
  - destruct Hrun as (plan & out & _ & Hrun & Hres).
    destruct (loop_run_bad_page _ _ _ _ _ _ _ _ _ _ _ _ Hrun Hi Hc Hp) as [-> Hlen].
    by split.
  - destruct Hrun as [_ Hnil]. by rewrite Hnil in Hi.
Qed.
End RunFacts.

Lemma search_youtube_calls_uniform_witness :
  let c := {| args := request_of "langchain" 50 "2023-05-18T14:00:00Z" PNone;
              outcome := Raise (ApiError "quota exceeded") |} in
  part (args c) = "snippet" ∧ q (args c) = "langchain"
  ∧ week_ago_formatted noon_utc_plus_2 4 = Ok (publishedAfter (args c)).
Proof.
  apply (search_youtube_calls_uniform scripted noon_utc_plus_2 "langchain"
           200 4 three_pages).
  apply list_elem_of_lookup. exists 3%nat. vm_compute. reflexivity.
Defined.

Lemma search_youtube_empty_plan_witness :
  let run := run_search_youtube scripted noon_utc_plus_2 "langchain" (-100) 4
               three_pages in
  run.1 = Ok [] ∧ trace run.2 = [] ∧ world run.2 = three_pages.
Proof.
  apply (search_youtube_empty_plan scripted noon_utc_plus_2 "langchain" (-100) 4
           three_pages).
  - eexists. vm_compute. reflexivity.
  - lia.
  - reflexivity.
Defined.

Lemma search_youtube_negative_total_witness :
  let run := run_search_youtube scripted noon_utc_plus_2 "langchain" (-5) 4
               three_pages in
  ∃ c, trace run.2 = [c] ∧ maxResults (args c) = (-5) `mod` 50
       ∧ pageToken (args c) = PNone.
Proof.
  apply (search_youtube_negative_total scripted noon_utc_plus_2 "langchain" (-5) 4
           three_pages).
  - eexists. vm_compute. reflexivity.
  - lia.
  - vm_compute. discriminate.
Defined.

Lemma search_youtube_lookback_overflow_witness :
  let run := run_search_youtube scripted noon_utc_plus_2 "langchain" 120 200000
               three_pages in
  OverflowError = OverflowError ∧ run.1 = Raise OverflowError
  ∧ trace run.2 = [] ∧ world run.2 = three_pages.
Proof.
  apply (search_youtube_lookback_overflow scripted noon_utc_plus_2 "langchain"
           120 200000 three_pages OverflowError).
  vm_compute. reflexivity.
Defined.

Lemma search_youtube_bad_page_witness :
  let run := run_search_youtube scripted noon_utc_plus_2 "langchain" 120 4
               [page_of 50 (Some "t1"); PDict ∅; page_of 20 None] in
  run.1 = Raise KeyError ∧ length (trace run.2) = 2%nat.
Proof.
  apply (search_youtube_bad_page scripted noon_utc_plus_2 "langchain" 120 4
           [page_of 50 (Some "t1"); PDict ∅; page_of 20 None] 1
           {| args := request_of "langchain" 50 "2023-05-18T14:00:00Z" (PStr "t1");
              outcome := Ok (PDict ∅, PNone) |} (PDict ∅) PNone KeyError).
  - vm_compute. reflexivity.
  - reflexivity.
  - vm_compute. reflexivity.
Defined.

(** ** More on the planner *)

(** X7. Asking for one page more puts one full page in front of the
    plan. *)
Theorem split_batches_one_more_page N X plan :
  0 ≤ N → 0 < X →
  split_batches N X = Ok plan →
  split_batches (N + X) X = Ok (X :: plan).
Proof.
  intros HN HX. rewrite !split_batches_nonzero by lia. intros <-%Ok_inj.
  replace (N + X) with (N + 1 * X) by lia.
  rewrite Z.div_add, Z.mod_add by lia.
  pose proof (Z.div_pos N X HN HX) as Hq.
  replace (Z.to_nat (N `div` X + 1)) with (S (Z.to_nat (N `div` X))) by lia.
  done.
Qed.

Lemma split_batches_one_more_page_witness :
  split_batches (201 + 50) 50 = Ok [50; 50; 50; 50; 50; 1].
Proof.
  apply (split_batches_one_more_page 201 50 [50; 50; 50; 50; 1]);
    [lia|lia|reflexivity].
Defined.

(** ** More on the record normaliser *)

Lemma parse_youtube_response_dict_cases d :
  (is_dict (default (PDict ∅) (d !! "snippet")) = true
   ∧ is_dict (default (PDict ∅) (d !! "id")) = true
   ∧ ∃ r, parse_youtube_response (PDict d) = Ok r)
  ∨ ((is_dict (default (PDict ∅) (d !! "snippet")) = false
      ∨ is_dict (default (PDict ∅) (d !! "id")) = false)
     ∧ parse_youtube_response (PDict d) = Raise AttributeError).
Proof.
  unfold parse_youtube_response. cbn [py_get mbind res_bind].
  destruct (default (PDict ∅) (d !! "snippet")) as [| | | | |data];
    destruct (default (PDict ∅) (d !! "id")) as [| | | | |idd];
    cbn [py_get mbind res_bind is_dict];
    first [ left; split; [reflexivity|]; split; [reflexivity|];
            eexists; reflexivity
          | right; split; [|reflexivity]; first [by left|by right] ].
Qed.

Lemma raw_item_dict d :
  raw_item (PDict d) ↔
  is_dict (default (PDict ∅) (d !! "snippet")) = true
  ∧ is_dict (default (PDict ∅) (d !! "id")) = true.
Proof.
  unfold raw_item. split.
  - intros (d' & [= <-] & Hs & Hi). split.
    + destruct (d !! "snippet") as [v|]; simpl; [by apply Hs|done].
    + destruct (d !! "id") as [v|]; simpl; [by apply Hi|done].
  - intros [Hs Hi]. exists d. split; [done|]. split.
    + intros v Hv. by rewrite Hv in Hs.
    + intros v Hv. by rewrite Hv in Hi.
Qed.

(** X8. The normaliser raises on what is not a raw item, and only then:
    an item that is not a dictionary, or whose ["snippet"] or ["id"] is
    there and is not a dictionary ([None] included); the exception is
    always an [AttributeError]. *)
Theorem parse_youtube_response_raises item :
  (parse_youtube_response item = Raise AttributeError ↔ ¬ raw_item item)
  ∧ (∀ e, parse_youtube_response item = Raise e → e = AttributeError).
Proof.
  destruct item as [| | | | |d];
    try (split; [split; [intros _ (d & Hd & _); discriminate Hd|reflexivity]
                |intros e H; by injection H]).
  destruct (parse_youtube_response_dict_cases d)
    as [(Hs & Hi & r & Hr)|[Hbad Hr]]; rewrite Hr.
  - split; [split|].
    + intros H. destruct (Raise_not_Ok _ _ (eq_sym H)).
    + intros Hraw. destruct Hraw. by apply raw_item_dict.
    + intros e H. destruct (Raise_not_Ok _ _ (eq_sym H)).
  - split; [split; [|done]|].
    + intros _ [Hs Hi]%raw_item_dict. destruct Hbad; congruence.
    + intros e H. by injection H.
Qed.

(** ** The calendar *)









